(** * Fair / CZLib: the zlib shim header

    [Sources/CZLib/include/shim.h] is a header made of preprocessor
    directives only.  It is embedded here as a list of directives, run by a
    small preprocessor over the state of a translation unit: the macro table,
    the table of headers already brought in by [#import], and the trace of
    what the preprocessor emitted so far.

    - A macro is an object-like macro: a name bound to its replacement list,
      kept as a string ([#define zlib_shim_h] binds the empty string).
    - The platform is what the compiler predefines: a translation unit is
      Unix-like when [__unix__] is in its macro table.
    - [<stdio.h>] and [<zlib.h>] belong to the system, not to the repository.
      An import records the header, emits an inclusion event, and hands the
      macro table to a parameter that stands for the header's own [#define]s
      and [#undef]s.  [exec] and [run] take headers [ext] that are installed
      and accept every macro table; [exec_with] and [run_with] take headers
      [hdr] that may be missing or stop with an error, and agree with the
      former on headers that are installed ([exec_with_installed]). *)

From stdpp Require Import gmap strings list.

Open Scope string_scope.
Open Scope list_scope.
Set Warnings "-register-all".

(** ** Directives *)

(** The directives the header is written with.  [Text] stands for a line of
    ordinary C source (a declaration of a type, a function or a constant). *)
Inductive directive : Type :=
| Define (name body : string)
| Import (header : string)
| IfDef (name : string) (body : list directive)
| IfNDef (name : string) (body : list directive)
| Text (line : string).

(** ** Preprocessor state *)

(** What the preprocessor did, oldest first: a macro was defined, a header
    was included (its declarations become visible at that point, as the
    header wrote them), a line of the file's own source was passed on. *)
Inductive event : Type :=
| EvDefine (name body : string)
| EvInclude (header : string)
| EvText (line : string).

Record pp_state : Type := mkState {
  macros : gmap string string;
  imported : gset string;
  trace : list event
}.

Inductive pp_error : Type :=
| Redefined (name : string)
| HeaderFailed (header : string).

(** Results of the preprocessor: a new state or a diagnostic. *)
Inductive res (A : Type) : Type :=
| Ok (a : A)
| Err (e : pp_error).
Arguments Ok {A} a.
Arguments Err {A} e.

#[global] Instance res_ret : MRet res := fun _ a => Ok a.
#[global] Instance res_bind : MBind res := fun _ _ f r =>
  match r with
  | Ok a => f a
  | Err e => Err e
  end.

Definition defined (name : string) (s : pp_state) : bool :=
  match macros s !! name with
  | Some _ => true
  | None => false
  end.

Definition emit (e : event) (s : pp_state) : pp_state :=
  mkState (macros s) (imported s) (trace s ++ [e]).

(** [#define name body].  Defining a macro that is already defined with
    another replacement list is a constraint violation; repeating the same
    definition is allowed. *)
Definition define (name body : string) (s : pp_state) : res pp_state :=
  match macros s !! name with
  | None => Ok (mkState (<[name := body]> (macros s)) (imported s)
                        (trace s ++ [EvDefine name body]))
  | Some old => if decide (old = body) then Ok (emit (EvDefine name body) s)
                else Err (Redefined name)
  end.

Section Preprocessor.

(** The system headers are not part of the repository.  What processing one
    of them does to the macro table is a parameter: [ext h m] is the macro
    table after header [h] was processed under table [m]. *)
Variable ext : string → gmap string string → gmap string string.

(** [#import <header>]: bring the header in unless it was brought in before. *)
Definition import (header : string) (s : pp_state) : pp_state :=
  if decide (header ∈ imported s) then s
  else mkState (ext header (macros s)) ({[header]} ∪ imported s)
               (trace s ++ [EvInclude header]).

(** One directive.  A conditional whose test fails skips its body up to the
    matching [#endif]; otherwise the body is processed in order and the first
    diagnostic stops it. *)
Fixpoint exec (d : directive) (s : pp_state) {struct d} : res pp_state :=
  let fix exec_all (ds : list directive) (s : pp_state) : res pp_state :=
    match ds with
    | [] => Ok s
    | d :: ds' => s1 ← exec d s; exec_all ds' s1
    end in
  match d with
  | Define name body => define name body s
  | Import header => Ok (import header s)
  | IfDef name body => if defined name s then exec_all body s else Ok s
  | IfNDef name body => if defined name s then Ok s else exec_all body s
  | Text line => Ok (emit (EvText line) s)
  end.

(** A sequence of directives, such as a whole file. *)
Fixpoint run (ds : list directive) (s : pp_state) : res pp_state :=
  match ds with
  | [] => Ok s
  | d :: ds' => s1 ← exec d s; run ds' s1
  end.

End Preprocessor.

Section Fallible.

(** Headers that can fail: [hdr h m] is the macro table after header [h] was
    processed under table [m], or [None] when [h] is not found or stops the
    translation with an error under [m]. *)
Variable hdr : string → gmap string string → option (gmap string string).

(** [#import <header>] when the header may fail: a failure is fatal. *)
Definition import_with (header : string) (s : pp_state) : res pp_state :=
  if decide (header ∈ imported s) then Ok s
  else match hdr header (macros s) with
       | Some m => Ok (mkState m ({[header]} ∪ imported s)
                               (trace s ++ [EvInclude header]))
       | None => Err (HeaderFailed header)
       end.

Fixpoint exec_with (d : directive) (s : pp_state) {struct d} : res pp_state :=
  let fix exec_all (ds : list directive) (s : pp_state) : res pp_state :=
    match ds with
    | [] => Ok s
    | d :: ds' => s1 ← exec_with d s; exec_all ds' s1
    end in
  match d with
  | Define name body => define name body s
  | Import header => import_with header s
  | IfDef name body => if defined name s then exec_all body s else Ok s
  | IfNDef name body => if defined name s then Ok s else exec_all body s
  | Text line => Ok (emit (EvText line) s)
  end.

Fixpoint run_with (ds : list directive) (s : pp_state) : res pp_state :=
  match ds with
  | [] => Ok s
  | d :: ds' => s1 ← exec_with d s; run_with ds' s1
  end.

End Fallible.

(** Headers that are installed and accept every macro table. *)
Definition installed (ext : string → gmap string string → gmap string string)
    (header : string) (m : gmap string string) : option (gmap string string) :=
  Some (ext header m).

(** ** The header *)

Definition zlib_shim_h : string := "zlib_shim_h".
Definition __unix__ : string := "__unix__".
Definition _LARGEFILE64_SOURCE : string := "_LARGEFILE64_SOURCE".
Definition _FILE_OFFSET_BITS : string := "_FILE_OFFSET_BITS".
Definition _LFS64_LARGEFILE : string := "_LFS64_LARGEFILE".

(** Lines 10-20: the three large-file feature flags. *)
Definition large_file_flags : list directive :=
  [ IfNDef _LARGEFILE64_SOURCE [Define _LARGEFILE64_SOURCE "1"];
    IfNDef _FILE_OFFSET_BITS [Define _FILE_OFFSET_BITS "64"];
    IfNDef _LFS64_LARGEFILE [Define _LFS64_LARGEFILE "1"] ].

(** Lines 4-22: the platform test and what it encloses. *)
Definition configuration : directive :=
  IfDef __unix__ (Import "stdio.h" :: Import "zlib.h" :: large_file_flags).

(** Lines 1-24: the whole header under its include guard. *)
Definition shim_h : list directive :=
  [ IfNDef zlib_shim_h [ Define zlib_shim_h ""; configuration ] ].

(** ** Closed forms

    [with_default name body] is what [#ifndef name / #define name body /
    #endif] does to a state; the lemmas below compute the header's blocks
    once and for all in these terms. *)

Definition with_default (name body : string) (s : pp_state) : pp_state :=
  if defined name s then s
  else mkState (<[name := body]> (macros s)) (imported s)
               (trace s ++ [EvDefine name body]).

Definition with_flags (s : pp_state) : pp_state :=
  with_default _LFS64_LARGEFILE "1"
    (with_default _FILE_OFFSET_BITS "64"
       (with_default _LARGEFILE64_SOURCE "1" s)).

Definition with_guard (s : pp_state) : pp_state :=
  mkState (<[zlib_shim_h := ""]> (macros s)) (imported s)
          (trace s ++ [EvDefine zlib_shim_h ""]).

(** The value a flag gets when nobody defined it. *)
Definition flag_default (name : string) : option string :=
  if decide (name = _LARGEFILE64_SOURCE) then Some "1"
  else if decide (name = _FILE_OFFSET_BITS) then Some "64"
  else if decide (name = _LFS64_LARGEFILE) then Some "1"
  else None.

(** A system header keeps macro [name] when processing it neither defines,
    redefines nor undefines [name]. *)
Definition keeps (ext : string → gmap string string → gmap string string)
    (name : string) : Prop :=
  ∀ header m, ext header m !! name = m !! name.

Definition is_header_include (e : event) : Prop :=
  e = EvInclude "stdio.h" ∨ e = EvInclude "zlib.h".

Definition is_flag_define (e : event) : Prop :=
  e = EvDefine _LARGEFILE64_SOURCE "1" ∨ e = EvDefine _FILE_OFFSET_BITS "64"
  ∨ e = EvDefine _LFS64_LARGEFILE "1".

Definition flags : list string :=
  [_LARGEFILE64_SOURCE; _FILE_OFFSET_BITS; _LFS64_LARGEFILE].

Definition keeps_flags
    (ext : string → gmap string string → gmap string string) : Prop :=
  ∀ flag, flag ∈ flags → keeps ext flag.

(** The events the header can add to a trace: nothing, or the definition of
    its guard, then inclusions of the two system headers, then definitions
    of flags at their defaults. *)
Definition shim_events (evs : list event) : Prop :=
  evs = [] ∨
  ∃ incs defs, evs = EvDefine zlib_shim_h "" :: incs ++ defs ∧
    Forall is_header_include incs ∧ Forall is_flag_define defs.

(** Both headers are in and the three flags are defined. *)
Definition settled (s : pp_state) : Prop :=
  "stdio.h" ∈ imported s ∧ "zlib.h" ∈ imported s ∧
  defined _LARGEFILE64_SOURCE s = true ∧ defined _FILE_OFFSET_BITS s = true ∧
  defined _LFS64_LARGEFILE s = true.

#[global] Instance event_eq_dec : EqDecision event.
Proof. solve_decision. Defined.

(** The event of [#ifndef name / #define name body / #endif] in state [s]:
    one definition if [name] is missing, nothing otherwise. *)
Definition missing (name body : string) (s : pp_state) : list event :=
  if defined name s then [] else [EvDefine name body].

(** The event of [#import <header>] in state [s]. *)
Definition included (header : string) (s : pp_state) : list event :=
  if decide (header ∈ imported s) then [] else [EvInclude header].

(** The macros the header defines itself. *)
Definition own_macros : list string := zlib_shim_h :: flags.

(** In the run from [s], the two imports of lines 6-7 leave macro [name] as
    they found it: what [name] is bound to when the flag block is reached is
    what it was bound to in [s]. *)
Definition untouched_by_imports
    (ext : string → gmap string string → gmap string string)
    (s : pp_state) (name : string) : Prop :=
  macros (import ext "zlib.h" (import ext "stdio.h" s)) !! name
    = macros s !! name.

(** ** Sample inputs

    Stand-ins for the two system headers, used by the examples: each defines
    a few macros of its own and leaves every other macro alone. *)
Definition sys_headers (header : string) (m : gmap string string)
    : gmap string string :=
  if decide (header = "zlib.h")
  then <["ZLIB_VERNUM" := "0x12b0"]> (<["ZLIB_H" := ""]> m)
  else if decide (header = "stdio.h") then <["_STDIO_H" := "1"]> m
  else m.

(** A Unix translation unit that includes the header first thing. *)
Definition unix_fresh : pp_state := mkState {[__unix__ := "1"]} ∅ [].

(** The same, built with [-D_FILE_OFFSET_BITS=32]. *)
Definition unix_fob32 : pp_state :=
  mkState (<[_FILE_OFFSET_BITS := "32"]> {[__unix__ := "1"]}) ∅ [].

(** A Windows translation unit. *)
Definition win_fresh : pp_state := mkState {["_WIN32" := "1"]} ∅ [].

(** A translation unit in which [_LARGEFILE64_SOURCE] is defined as 0. *)
Definition unix_l64_zero : pp_state :=
  mkState (<[_LARGEFILE64_SOURCE := "0"]> {[__unix__ := "1"]}) ∅ [].

(** A Unix translation unit that imported both headers before the shim. *)
Definition unix_preloaded : pp_state :=
  mkState {[__unix__ := "1"]} {["stdio.h"; "zlib.h"]}
          [EvInclude "stdio.h"; EvInclude "zlib.h"].

(** System headers of which [stdio.h] settles [_FILE_OFFSET_BITS] itself. *)
Definition lfs_headers (header : string) (m : gmap string string)
    : gmap string string :=
  if decide (header = "stdio.h") then <[_FILE_OFFSET_BITS := "32"]> m else m.

(** System headers of which [stdio.h] does what the C library's feature test
    header does under [_GNU_SOURCE]: undefine [_LARGEFILE64_SOURCE] and
    define it as 1. *)
Definition gnu_headers (header : string) (m : gmap string string)
    : gmap string string :=
  if decide (header = "stdio.h") then
    match m !! "_GNU_SOURCE" with
    | Some _ => <[_LARGEFILE64_SOURCE := "1"]> m
    | None => m
    end
  else m.

(** A Unix translation unit built with [-D_GNU_SOURCE] and
    [-D_LARGEFILE64_SOURCE=2]. *)
Definition unix_gnu_l64_two : pp_state :=
  mkState (<[_LARGEFILE64_SOURCE := "2"]>
             (<["_GNU_SOURCE" := "1"]> {[__unix__ := "1"]})) ∅ [].

(** A system on which [zlib.h] is not installed. *)
Definition no_zlib (header : string) (m : gmap string string)
    : option (gmap string string) :=
  if decide (header = "zlib.h") then None else Some (sys_headers header m).

(** A system whose [stdio.h] tests [_FILE_OFFSET_BITS == 64] when the macro
    is defined, and so stops on a macro defined to nothing. *)
Definition strict_stdio (header : string) (m : gmap string string)
    : option (gmap string string) :=
  if decide (header = "stdio.h" ∧ m !! _FILE_OFFSET_BITS = Some "")
  then None else Some (sys_headers header m).

(** A Unix translation unit built with [-D_FILE_OFFSET_BITS=]. *)
Definition unix_fob_empty : pp_state :=
  mkState (<[_FILE_OFFSET_BITS := ""]> {[__unix__ := "1"]}) ∅ [].

(** * Properties *)

(** Membership of a concrete name in [flags]. *)
Ltac in_flags := unfold flags; rewrite !elem_of_cons; auto.

Lemma defined_true name s : defined name s = true ↔ is_Some (macros s !! name).
Proof.
  unfold defined. destruct (macros s !! name); split; intros H;
    first [done | by eexists | by destruct H].
Qed.

Lemma defined_false name s : defined name s = false ↔ macros s !! name = None.
Proof. unfold defined. by destruct (macros s !! name). Qed.

Section Header.

Variable ext : string → gmap string string → gmap string string.

Lemma exec_IfDef name body s :
  exec ext (IfDef name body) s = if defined name s then run ext body s else Ok s.
Proof. reflexivity. Qed.

Lemma exec_IfNDef name body s :
  exec ext (IfNDef name body) s = if defined name s then Ok s else run ext body s.
Proof. reflexivity. Qed.

Lemma exec_default name body s :
  exec ext (IfNDef name [Define name body]) s = Ok (with_default name body s).
Proof.
  rewrite exec_IfNDef. unfold with_default.
  destruct (defined name s) eqn:Hd; [done|].
  apply defined_false in Hd. simpl. unfold define. by rewrite Hd.
Qed.

Lemma run_large_file_flags s :
  run ext large_file_flags s = Ok (with_flags s).
Proof.
  unfold large_file_flags, with_flags.
  cbn [run]. rewrite exec_default. cbn [mbind res_bind].
  rewrite exec_default. cbn [mbind res_bind].
  by rewrite exec_default.
Qed.

Lemma exec_configuration s :
  exec ext configuration s =
    if defined __unix__ s
    then Ok (with_flags (import ext "zlib.h" (import ext "stdio.h" s)))
    else Ok s.
Proof.
  unfold configuration. rewrite exec_IfDef.
  destruct (defined __unix__ s); [|done].
  cbn [run exec]. apply run_large_file_flags.
Qed.

Lemma run_shim_h s :
  run ext shim_h s =
    if defined zlib_shim_h s then Ok s else exec ext configuration (with_guard s).
Proof.
  unfold shim_h. cbn [run]. rewrite exec_IfNDef.
  destruct (defined zlib_shim_h s) eqn:Hd; [done|].
  apply defined_false in Hd.
  cbn [run]. cbn [exec]. unfold define. rewrite Hd.
  change (mkState _ _ _) with (with_guard s).
  cbn [mbind res_bind].
  by destruct (exec ext configuration (with_guard s)).
Qed.

(** *** What the flag block does to each component of the state *)

Lemma macros_with_default name body s k :
  macros (with_default name body s) !! k =
    match macros s !! k with
    | Some v => Some v
    | None => if decide (k = name) then Some body else None
    end.
Proof.
  unfold with_default. destruct (defined name s) eqn:Hd.
  - apply defined_true in Hd as [v Hv].
    destruct (macros s !! k) eqn:Hk; [done|].
    case_decide; [congruence|done].
  - apply defined_false in Hd. cbn [macros]. rewrite lookup_insert.
    destruct (decide (name = k)) as [->|Hne].
    + by rewrite Hd, decide_True.
    + destruct (macros s !! k); [done|]. by rewrite decide_False.
Qed.

Lemma macros_with_flags s k :
  macros (with_flags s) !! k =
    match macros s !! k with
    | Some v => Some v
    | None => flag_default k
    end.
Proof.
  unfold with_flags, flag_default. rewrite !macros_with_default.
  destruct (macros s !! k); [done|].
  repeat case_decide; subst; done.
Qed.

Lemma imported_with_default name body s :
  imported (with_default name body s) = imported s.
Proof. unfold with_default. by destruct (defined name s). Qed.

Lemma imported_with_flags s : imported (with_flags s) = imported s.
Proof. unfold with_flags. by rewrite !imported_with_default. Qed.

Lemma trace_with_default name body s :
  trace (with_default name body s) =
    trace s ++ (if defined name s then [] else [EvDefine name body]).
Proof.
  unfold with_default. destruct (defined name s); [|done].
  by rewrite app_nil_r.
Qed.

Lemma trace_with_flags s :
  ∃ defs, trace (with_flags s) = trace s ++ defs ∧ Forall is_flag_define defs.
Proof.
  unfold with_flags. rewrite !trace_with_default, <- !app_assoc.
  eexists; split; [done|].
  repeat apply Forall_app_2;
    match goal with |- context [if ?b then _ else _] => destruct b end;
    first [apply Forall_nil_2 | apply Forall_singleton];
    unfold is_flag_define; auto.
Qed.

Lemma with_flags_defined s :
  defined _LARGEFILE64_SOURCE s = true → defined _FILE_OFFSET_BITS s = true →
  defined _LFS64_LARGEFILE s = true → with_flags s = s.
Proof.
  intros H1 H2 H3. unfold with_flags, with_default.
  by rewrite H1, H2, H3.
Qed.

Lemma defined_with_flags s name :
  is_Some (flag_default name) → defined name (with_flags s) = true.
Proof.
  intros [v Hv]. apply defined_true. rewrite macros_with_flags, Hv.
  by destruct (macros s !! name).
Qed.

(** *** What an import does to each component of the state *)

Lemma import_again header s : header ∈ imported s → import ext header s = s.
Proof. intros Hin. unfold import. by rewrite decide_True. Qed.

Lemma imported_import header s : header ∈ imported (import ext header s).
Proof. unfold import. case_decide; [done|]. cbn. set_solver. Qed.

Lemma imported_import_mono header h s :
  h ∈ imported s → h ∈ imported (import ext header s).
Proof. intros Hin. unfold import. case_decide; [done|]. cbn. set_solver. Qed.

Lemma macros_import_keeps header s name :
  keeps ext name → macros (import ext header s) !! name = macros s !! name.
Proof. intros Hk. unfold import. case_decide; [done|]. apply Hk. Qed.

Lemma trace_import header s :
  trace (import ext header s) =
    trace s ++ (if decide (header ∈ imported s) then [] else [EvInclude header]).
Proof. unfold import. case_decide; [|done]. by rewrite app_nil_r. Qed.

End Header.

Lemma sys_headers_keeps name :
  name ∉ ["ZLIB_VERNUM"; "ZLIB_H"; "_STDIO_H"] → keeps sys_headers name.
Proof.
  intros Hn header m. unfold sys_headers.
  repeat case_decide; rewrite ?lookup_insert_ne; try done;
    intros <-; apply Hn; rewrite !elem_of_cons; auto.
Qed.

Lemma sys_headers_keeps_flags : keeps_flags sys_headers.
Proof.
  intros flag Hin. apply sys_headers_keeps.
  unfold flags in Hin. rewrite !elem_of_cons, elem_of_nil in Hin.
  rewrite !elem_of_cons, elem_of_nil.
  destruct Hin as [->|[->|[->|[]]]]; intros [H|[H|[H|[]]]]; discriminate H.
Qed.

Lemma sys_headers_keeps_guard : keeps sys_headers zlib_shim_h.
Proof.
  apply sys_headers_keeps. rewrite !elem_of_cons, elem_of_nil.
  intros [H|[H|[H|[]]]]; discriminate H.
Qed.

(** The macro table after the Unix branch, for a macro the system headers
    keep: the value it had, or else the default of the flag block. *)
Lemma macros_configured ext s name :
  keeps ext name →
  macros (with_flags (import ext "zlib.h" (import ext "stdio.h" s))) !! name =
    match macros s !! name with
    | Some v => Some v
    | None => flag_default name
    end.
Proof.
  intros Hk. by rewrite macros_with_flags, !macros_import_keeps.
Qed.

(** The events of the Unix branch: the includes that were still due, then
    definitions of flags at their defaults. *)
Lemma trace_configured ext s :
  ∃ incs defs,
    trace (with_flags (import ext "zlib.h" (import ext "stdio.h" s))) =
      trace s ++ incs ++ defs ∧
    incs = (if decide ("stdio.h" ∈ imported s) then [] else [EvInclude "stdio.h"])
           ++ (if decide ("zlib.h" ∈ imported s) then [] else [EvInclude "zlib.h"]) ∧
    Forall is_header_include incs ∧ Forall is_flag_define defs.
Proof.
  destruct (trace_with_flags (import ext "zlib.h" (import ext "stdio.h" s)))
    as (defs & -> & Hdefs).
  rewrite !trace_import.
  assert ("zlib.h" ∈ imported (import ext "stdio.h" s) ↔ "zlib.h" ∈ imported s)
    as Hz.
  { unfold import. case_decide; [done|]. cbn [imported].
    rewrite elem_of_union, elem_of_singleton.
    split; [intros [Heq|Hin]; [discriminate Heq|exact Hin] | by right]. }
  exists ((if decide ("stdio.h" ∈ imported s) then [] else [EvInclude "stdio.h"])
           ++ (if decide ("zlib.h" ∈ imported s) then [] else [EvInclude "zlib.h"])),
    defs.
  split; [|split; [done|]].
  - repeat case_decide; try tauto; by rewrite <- ?app_assoc.
  - split; [|done]. apply Forall_app_2; case_decide;
      first [apply Forall_nil_2 | apply Forall_singleton];
      unfold is_header_include; auto.
Qed.

(** *** The include guard *)

Lemma macros_with_guard s name :
  name ≠ zlib_shim_h → macros (with_guard s) !! name = macros s !! name.
Proof. intros Hne. cbn. by rewrite lookup_insert_ne. Qed.

Lemma defined_with_guard s name :
  name ≠ zlib_shim_h → defined name (with_guard s) = defined name s.
Proof. intros Hne. unfold defined. by rewrite macros_with_guard. Qed.

Lemma guard_with_guard s : defined zlib_shim_h (with_guard s) = true.
Proof. apply defined_true. cbn. rewrite lookup_insert_eq. by eexists. Qed.

Lemma flag_not_guard flag : flag ∈ flags → flag ≠ zlib_shim_h.
Proof.
  unfold flags. rewrite !elem_of_cons, elem_of_nil.
  intros [->|[->|[->|[]]]]; discriminate.
Qed.

(** *** Settled states: both headers in, all three flags defined *)

Lemma settled_after_unix ext s :
  settled (with_flags (import ext "zlib.h" (import ext "stdio.h" s))).
Proof.
  unfold settled. rewrite imported_with_flags. split; [|split].
  - apply imported_import_mono, imported_import.
  - apply imported_import.
  - repeat split; apply defined_with_flags; by eexists.
Qed.

Lemma configuration_settled ext s :
  settled s → exec ext configuration s = Ok s.
Proof.
  intros (Hs & Hz & H1 & H2 & H3). rewrite exec_configuration.
  destruct (defined __unix__ s); [|done].
  by rewrite (import_again _ "stdio.h"), (import_again _ "zlib.h"),
    with_flags_defined.
Qed.

Lemma settled_with_guard s : settled s → settled (with_guard s).
Proof.
  intros (Hs & Hz & H1 & H2 & H3). unfold settled.
  rewrite !defined_with_guard by discriminate. by cbn [imported with_guard].
Qed.

(** ** The flag block on its own, and the header on first inclusion *)

(** Lines 10-20 from the state in which they are reached: every macro that
    is defined keeps its value, the flags that are not get their defaults,
    and no system header is involved. *)
Lemma flag_block_alone ext s :
  ∃ s', run ext large_file_flags s = Ok s' ∧
    (∀ name V, macros s !! name = Some V → macros s' !! name = Some V) ∧
    (∀ name, macros s !! name = None → macros s' !! name = flag_default name).
Proof.
  rewrite run_large_file_flags. eexists; split; [done|].
  split; intros name; rewrite macros_with_flags; [intros V|]; by intros ->.
Qed.

(** The whole header, included for the first time on Unix: the flags end up
    as the configuration step leaves them. *)
Lemma shim_h_first_inclusion ext s :
  defined __unix__ s = true →
  defined zlib_shim_h s = false →
  keeps_flags ext →
  ∃ s', run ext shim_h s = Ok s' ∧
    ∀ flag, flag ∈ flags →
      macros s' !! flag =
        match macros s !! flag with
        | Some v => Some v
        | None => flag_default flag
        end.
Proof.
  intros Hunix Hg Hk.
  rewrite run_shim_h, Hg, exec_configuration, defined_with_guard, Hunix
    by discriminate.
  eexists; split; [done|]. intros flag Hin.
  rewrite macros_configured by auto.
  by rewrite macros_with_guard by by apply flag_not_guard.
Qed.

Lemma keeps_untouched ext s name :
  keeps ext name → untouched_by_imports ext s name.
Proof.
  intros Hk. unfold untouched_by_imports. by rewrite !macros_import_keeps.
Qed.

(** ** The claims about the flag values *)

(** C2, as amended: on a Unix-like platform a flag that is already defined
    with value [V] before the configuration step runs, and that the imports
    of [stdio.h] and [zlib.h] leave as they found it, still has value [V]
    afterwards; in particular, when the imports leave the three flags as
    they found them, [_FILE_OFFSET_BITS] pre-defined as 32 stays 32 while
    the two other flags, undefined before, get their defaults. *)
Theorem predefined_flags_preserved ext s :
  defined __unix__ s = true →
  ∃ s', exec ext configuration s = Ok s' ∧
    (∀ flag V, flag ∈ flags → untouched_by_imports ext s flag →
       macros s !! flag = Some V → macros s' !! flag = Some V) ∧
    ((∀ flag, flag ∈ flags → untouched_by_imports ext s flag) →
     macros s !! _FILE_OFFSET_BITS = Some "32" →
     macros s !! _LARGEFILE64_SOURCE = None →
     macros s !! _LFS64_LARGEFILE = None →
       macros s' !! _FILE_OFFSET_BITS = Some "32" ∧
       macros s' !! _LARGEFILE64_SOURCE = Some "1" ∧
       macros s' !! _LFS64_LARGEFILE = Some "1").
Proof.
  intros Hunix. rewrite exec_configuration, Hunix.
  eexists; split; [done|]. unfold untouched_by_imports. split.
  - intros flag V Hin Hu HV. by rewrite macros_with_flags, Hu, HV.
  - intros Hu Hfob Hl64 Hlfs.
    rewrite !macros_with_flags, !Hu by in_flags.
    by rewrite Hfob, Hl64, Hlfs.
Qed.

Lemma predefined_flags_preserved_witness :
  defined __unix__ unix_fob32 = true ∧
  ∃ s', exec sys_headers configuration unix_fob32 = Ok s' ∧
    macros s' !! _FILE_OFFSET_BITS = Some "32" ∧
    macros s' !! _LARGEFILE64_SOURCE = Some "1" ∧
    macros s' !! _LFS64_LARGEFILE = Some "1".
Proof.
  split; [reflexivity|].
  destruct (predefined_flags_preserved sys_headers unix_fob32 eq_refl)
    as (s' & Hrun & _ & Hscenario).
  exists s'. split; [exact Hrun|]. apply Hscenario; try reflexivity.
  intros flag Hin. apply keeps_untouched, sys_headers_keeps_flags, Hin.
Defined.

(** C2 as first stated fails: with a [stdio.h] that redefines
    [_LARGEFILE64_SOURCE] under [_GNU_SOURCE], a flag pre-defined as 2 does
    not come out as 2 but as 1. *)
Lemma predefined_flag_overwritten :
  defined __unix__ unix_gnu_l64_two = true ∧
  macros unix_gnu_l64_two !! _LARGEFILE64_SOURCE = Some "2" ∧
  ∃ s', exec gnu_headers configuration unix_gnu_l64_two = Ok s' ∧
    macros s' !! _LARGEFILE64_SOURCE = Some "1" ∧
    macros s' !! _LARGEFILE64_SOURCE ≠ Some "2".
Proof.
  split; [reflexivity|]. split; [reflexivity|].
  eexists. split; [reflexivity|]. split; [reflexivity|].
  vm_compute. discriminate.
Qed.

(** C3, as amended: on a Unix-like platform each flag that is undefined
    before the configuration step runs, and that the imports of [stdio.h]
    and [zlib.h] leave undefined, is defined afterwards with its default:
    [_LARGEFILE64_SOURCE] 1, [_FILE_OFFSET_BITS] 64, [_LFS64_LARGEFILE] 1. *)
Theorem undefined_flags_get_defaults ext s :
  defined __unix__ s = true →
  ∃ s', exec ext configuration s = Ok s' ∧
    (untouched_by_imports ext s _LARGEFILE64_SOURCE →
     macros s !! _LARGEFILE64_SOURCE = None →
       macros s' !! _LARGEFILE64_SOURCE = Some "1") ∧
    (untouched_by_imports ext s _FILE_OFFSET_BITS →
     macros s !! _FILE_OFFSET_BITS = None →
       macros s' !! _FILE_OFFSET_BITS = Some "64") ∧
    (untouched_by_imports ext s _LFS64_LARGEFILE →
     macros s !! _LFS64_LARGEFILE = None →
       macros s' !! _LFS64_LARGEFILE = Some "1").
Proof.
  intros Hunix. rewrite exec_configuration, Hunix.
  eexists; split; [done|]. unfold untouched_by_imports.
  repeat split; intros Hu Hnone; by rewrite macros_with_flags, Hu, Hnone.
Qed.

Lemma undefined_flags_get_defaults_witness :
  defined __unix__ unix_fresh = true ∧
  ∃ s', exec sys_headers configuration unix_fresh = Ok s' ∧
    macros s' !! _LARGEFILE64_SOURCE = Some "1" ∧
    macros s' !! _FILE_OFFSET_BITS = Some "64" ∧
    macros s' !! _LFS64_LARGEFILE = Some "1".
Proof.
  split; [reflexivity|].
  destruct (undefined_flags_get_defaults sys_headers unix_fresh eq_refl)
    as (s' & Hrun & H1 & H2 & H3).
  exists s'. split; [exact Hrun|].
  split; [apply H1|split; [apply H2|apply H3]]; reflexivity.
Defined.

(** C3 as first stated fails: with a [stdio.h] that settles
    [_FILE_OFFSET_BITS] itself, the flag, undefined before the step, does
    not come out as its default 64 but as the header's 32. *)
Lemma undefined_flag_not_defaulted :
  defined __unix__ unix_fresh = true ∧
  macros unix_fresh !! _FILE_OFFSET_BITS = None ∧
  ∃ s', exec lfs_headers configuration unix_fresh = Ok s' ∧
    macros s' !! _FILE_OFFSET_BITS = Some "32" ∧
    macros s' !! _FILE_OFFSET_BITS ≠ Some "64".
Proof.
  split; [reflexivity|]. split; [reflexivity|].
  eexists. split; [reflexivity|]. split; [reflexivity|].
  vm_compute. discriminate.
Qed.



(** ** The claims about platforms, failure and repetition *)

(** C4: off Unix the configuration step (lines 4-22) returns the state it
    was given; the whole header then defines none of the three flags, imports
    nothing and emits nothing but the definition of its include guard. *)
Theorem configuration_inert_off_unix ext s :
  defined __unix__ s = false →
  exec ext configuration s = Ok s ∧
  ∃ s' evs, run ext shim_h s = Ok s' ∧
    (∀ flag, flag ∈ flags → macros s' !! flag = macros s !! flag) ∧
    imported s' = imported s ∧
    trace s' = trace s ++ evs ∧
    Forall (λ e, e = EvDefine zlib_shim_h "") evs.
Proof.
  intros Hunix. split; [by rewrite exec_configuration, Hunix|].
  rewrite run_shim_h. destruct (defined zlib_shim_h s).
  - exists s, []. by rewrite app_nil_r.
  - rewrite exec_configuration, defined_with_guard, Hunix by discriminate.
    exists (with_guard s), [EvDefine zlib_shim_h ""]. split; [done|]. split.
    + intros flag Hin. by apply macros_with_guard, flag_not_guard.
    + repeat split. by apply Forall_singleton.
Qed.

Lemma configuration_inert_off_unix_witness :
  defined __unix__ win_fresh = false ∧
  exec sys_headers configuration win_fresh = Ok win_fresh ∧
  ∃ s', run sys_headers shim_h win_fresh = Ok s' ∧
    macros s' !! _FILE_OFFSET_BITS = None ∧ imported s' = ∅.
Proof.
  split; [reflexivity|].
  destruct (configuration_inert_off_unix sys_headers win_fresh eq_refl)
    as (Hstep & s' & evs & Hrun & Hflags & Himp & _).
  split; [exact Hstep|]. exists s'. split; [exact Hrun|]. split.
  - rewrite Hflags; [reflexivity|in_flags].
  - exact Himp.
Defined.

(** *** The step when headers can fail *)

Lemma exec_with_default hdr name body s :
  exec_with hdr (IfNDef name [Define name body]) s =
    Ok (with_default name body s).
Proof.
  change (exec_with hdr (IfNDef name [Define name body]) s)
    with (if defined name s then Ok s
          else run_with hdr [Define name body] s).
  unfold with_default. destruct (defined name s) eqn:Hd; [done|].
  apply defined_false in Hd. simpl. unfold define. by rewrite Hd.
Qed.

Lemma run_with_large_file_flags hdr s :
  run_with hdr large_file_flags s = Ok (with_flags s).
Proof.
  unfold large_file_flags, with_flags.
  cbn [run_with]. rewrite exec_with_default. cbn [mbind res_bind].
  rewrite exec_with_default. cbn [mbind res_bind].
  by rewrite exec_with_default.
Qed.

Lemma exec_with_configuration hdr s :
  exec_with hdr configuration s =
    if defined __unix__ s
    then s1 ← import_with hdr "stdio.h" s;
         s2 ← import_with hdr "zlib.h" s1;
         Ok (with_flags s2)
    else Ok s.
Proof.
  unfold configuration.
  change (exec_with hdr (IfDef __unix__ ?b) s)
    with (if defined __unix__ s then run_with hdr b s else Ok s).
  destruct (defined __unix__ s); [|done].
  cbn [run_with exec_with].
  destruct (import_with hdr "stdio.h" s) as [s1|e]; [|done].
  cbn [mbind res_bind].
  destruct (import_with hdr "zlib.h" s1) as [s2|e]; [|done].
  cbn [mbind res_bind]. apply run_with_large_file_flags.
Qed.

Lemma run_with_shim_h hdr s :
  run_with hdr shim_h s =
    if defined zlib_shim_h s then Ok s
    else exec_with hdr configuration (with_guard s).
Proof.
  unfold shim_h. cbn [run_with].
  change (exec_with hdr (IfNDef zlib_shim_h ?b) s)
    with (if defined zlib_shim_h s then Ok s else run_with hdr b s).
  destruct (defined zlib_shim_h s) eqn:Hd; [done|].
  apply defined_false in Hd.
  cbn [run_with]. cbn [exec_with]. unfold define. rewrite Hd.
  change (mkState _ _ _) with (with_guard s).
  cbn [mbind res_bind].
  by destruct (exec_with hdr configuration (with_guard s)).
Qed.

Lemma import_with_Err hdr header s e :
  import_with hdr header s = Err e →
  hdr header (macros s) = None ∧ e = HeaderFailed header.
Proof.
  unfold import_with. case_decide; [done|].
  destruct (hdr header (macros s)); [done|]. by intros [= <-].
Qed.

Lemma import_with_installed ext header s :
  import_with (installed ext) header s = Ok (import ext header s).
Proof. unfold import_with, import, installed. by case_decide. Qed.

(** On headers that are installed, the two preprocessors agree. *)
Lemma exec_with_installed ext d :
  ∀ s, exec_with (installed ext) d s = exec ext d s.
Proof.
  revert d. fix IH 1. intros d s.
  assert (∀ ds, (∀ t, Forall (λ d', exec_with (installed ext) d' t
                                  = exec ext d' t) ds) →
            ∀ t, run_with (installed ext) ds t = run ext ds t) as Hrun.
  { induction ds as [|d' ds IHds]; intros Hall t; [done|].
    cbn [run_with run].
    specialize (Hall t) as Hd. apply Forall_cons in Hd as [-> _].
    destruct (exec ext d' t) as [t1|e]; [|done]. cbn [mbind res_bind].
    apply IHds. intros t'. specialize (Hall t').
    by apply Forall_cons in Hall as [_ ?]. }
  destruct d as [name body|header|name body|name body|line].
  - reflexivity.
  - apply import_with_installed.
  - change (exec_with (installed ext) (IfDef name body) s)
      with (if defined name s then run_with (installed ext) body s else Ok s).
    rewrite exec_IfDef. destruct (defined name s); [|done].
    apply Hrun. intros t. induction body as [|d' ds IHds]; constructor.
    + apply IH.
    + apply IHds.
  - change (exec_with (installed ext) (IfNDef name body) s)
      with (if defined name s then Ok s else run_with (installed ext) body s).
    rewrite exec_IfNDef. destruct (defined name s); [done|].
    apply Hrun. intros t. induction body as [|d' ds IHds]; constructor.
    + apply IH.
    + apply IHds.
  - reflexivity.
Qed.

(** C6, as amended: the configuration step signals no error of its own.
    Off Unix it succeeds and returns the state it was given.  On Unix it
    succeeds whenever the imports of [stdio.h] and [zlib.h] succeed, whatever
    the three flags are bound to; when it fails, the error is the failure of
    one of these two headers (not found, or stopped under the macros in
    force).  The same holds of the header as a whole. *)
Theorem configuration_fails_only_in_headers hdr s :
  (defined __unix__ s = false → exec_with hdr configuration s = Ok s) ∧
  (∀ s1 s2, import_with hdr "stdio.h" s = Ok s1 →
            import_with hdr "zlib.h" s1 = Ok s2 →
            ∃ s', exec_with hdr configuration s = Ok s') ∧
  (∀ e, exec_with hdr configuration s = Err e →
     defined __unix__ s = true ∧
     ∃ header m, (header = "stdio.h" ∨ header = "zlib.h") ∧
       hdr header m = None ∧ e = HeaderFailed header) ∧
  (∀ e, run_with hdr shim_h s = Err e →
     defined zlib_shim_h s = false ∧ defined __unix__ s = true ∧
     ∃ header m, (header = "stdio.h" ∨ header = "zlib.h") ∧
       hdr header m = None ∧ e = HeaderFailed header).
Proof.
  assert (∀ t e, exec_with hdr configuration t = Err e →
            defined __unix__ t = true ∧
            ∃ header m, (header = "stdio.h" ∨ header = "zlib.h") ∧
              hdr header m = None ∧ e = HeaderFailed header) as Herr.
  { intros t e. rewrite exec_with_configuration.
    destruct (defined __unix__ t); [|done]. intros He. split; [done|].
    destruct (import_with hdr "stdio.h" t) as [t1|e1] eqn:H1;
      cbn [mbind res_bind] in He.
    - destruct (import_with hdr "zlib.h" t1) as [t2|e2] eqn:H2;
        cbn [mbind res_bind] in He; [discriminate He|].
      injection He as <-. apply import_with_Err in H2 as [? ?]. eauto 6.
    - injection He as <-. apply import_with_Err in H1 as [? ?]. eauto 6. }
  split; [|split; [|split]].
  - intros Hunix. by rewrite exec_with_configuration, Hunix.
  - intros s1 s2 H1 H2. rewrite exec_with_configuration, H1.
    cbn [mbind res_bind]. rewrite H2.
    destruct (defined __unix__ s); by eexists.
  - apply Herr.
  - intros e. rewrite run_with_shim_h.
    destruct (defined zlib_shim_h s); [done|]. intros He.
    apply Herr in He as [Hu Hh].
    by rewrite defined_with_guard in Hu by discriminate.
Qed.

(** C6 as first stated fails: the step stops with an error on a system
    without [zlib.h], and, for a state of the flags, on a system whose
    [stdio.h] tests the value of [_FILE_OFFSET_BITS] when the macro is
    defined to nothing. *)
Lemma configuration_can_fail :
  exec_with no_zlib configuration unix_fresh = Err (HeaderFailed "zlib.h") ∧
  exec_with strict_stdio configuration unix_fob_empty
    = Err (HeaderFailed "stdio.h").
Proof. split; reflexivity. Qed.

(** C5: running the configuration step a second time changes nothing at all;
    processing the whole header a second time leaves the three flags as the
    first pass left them.  Any platform, any initial state, any headers. *)
Theorem configuration_idempotent ext s :
  (∃ s1, exec ext configuration s = Ok s1 ∧ exec ext configuration s1 = Ok s1) ∧
  (∃ s1 s2, run ext shim_h s = Ok s1 ∧ run ext shim_h s1 = Ok s2 ∧
     ∀ flag, flag ∈ flags → macros s2 !! flag = macros s1 !! flag).
Proof.
  assert (∀ t, ∃ t1, exec ext configuration t = Ok t1 ∧
                 (t1 = t ∨ settled t1)) as Hstep.
  { intros t. rewrite exec_configuration. destruct (defined __unix__ t) eqn:Hu.
    - eexists; split; [done|]. right. apply settled_after_unix.
    - exists t. by split; [|left]. }
  split.
  - destruct (Hstep s) as (s1 & Hrun & Hcase). exists s1. split; [done|].
    destruct Hcase as [->|Hs]; [done|by apply configuration_settled].
  - rewrite run_shim_h. destruct (defined zlib_shim_h s) eqn:Hg.
    { exists s, s. by rewrite run_shim_h, Hg. }
    destruct (Hstep (with_guard s)) as (s1 & Hrun & Hcase). rewrite Hrun.
    destruct Hcase as [->|Hs].
    + exists (with_guard s), (with_guard s).
      by rewrite run_shim_h, guard_with_guard.
    + exists s1. rewrite run_shim_h. destruct (defined zlib_shim_h s1).
      * by exists s1.
      * exists (with_guard s1). split; [done|]. split.
        -- by apply configuration_settled, settled_with_guard.
        -- intros flag Hin. by apply macros_with_guard, flag_not_guard.
Qed.

(** C8: on every platform the header ends with its include guard
    [zlib_shim_h] defined, and a further inclusion is skipped: it returns
    the state unchanged.  On Unix the system headers are assumed to keep the
    guard; off Unix no header is processed and nothing is assumed. *)
Theorem guard_defined_after_shim ext s :
  (defined __unix__ s = true → keeps ext zlib_shim_h) →
  ∃ s', run ext shim_h s = Ok s' ∧
    defined zlib_shim_h s' = true ∧
    run ext shim_h s' = Ok s'.
Proof.
  intros Hk.
  assert (∀ t, defined zlib_shim_h t = true → run ext shim_h t = Ok t) as Hskip.
  { intros t Ht. by rewrite run_shim_h, Ht. }
  rewrite run_shim_h. destruct (defined zlib_shim_h s) eqn:Hg.
  { exists s. auto. }
  rewrite exec_configuration, defined_with_guard by discriminate.
  destruct (defined __unix__ s) eqn:Hu.
  - eexists; split; [done|].
    assert (defined zlib_shim_h
              (with_flags (import ext "zlib.h"
                 (import ext "stdio.h" (with_guard s)))) = true) as Hd.
    { apply defined_true. rewrite macros_configured by auto.
      cbn [macros with_guard]. rewrite lookup_insert_eq. by eexists. }
    auto.
  - exists (with_guard s). split; [done|].
    split; [apply guard_with_guard|apply Hskip, guard_with_guard].
Qed.

Lemma guard_defined_after_shim_witness :
  (defined __unix__ unix_fresh = true → keeps sys_headers zlib_shim_h) ∧
  ∃ s', run sys_headers shim_h unix_fresh = Ok s' ∧
    defined zlib_shim_h s' = true ∧ run sys_headers shim_h s' = Ok s'.
Proof.
  split; [intros _; exact sys_headers_keeps_guard|].
  exact (guard_defined_after_shim sys_headers unix_fresh
           (λ _, sys_headers_keeps_guard)).
Defined.

(** C9: on a Unix-like platform, processing the header (its guard still
    open) leaves [stdio.h] imported next to [zlib.h]; if [stdio.h] had not
    been imported before, its inclusion is in the trace. *)
Theorem shim_imports_stdio ext s :
  defined __unix__ s = true →
  defined zlib_shim_h s = false →
  ∃ s', run ext shim_h s = Ok s' ∧
    "stdio.h" ∈ imported s' ∧ "zlib.h" ∈ imported s' ∧
    ("stdio.h" ∉ imported s → EvInclude "stdio.h" ∈ trace s').
Proof.
  intros Hunix Hg.
  rewrite run_shim_h, Hg, exec_configuration, defined_with_guard, Hunix
    by discriminate.
  eexists; split; [done|].
  destruct (settled_after_unix ext (with_guard s)) as (Hs & Hz & _).
  split; [done|]. split; [done|]. intros Hnew.
  destruct (trace_configured ext (with_guard s)) as (incs & defs & -> & -> & _).
  cbn [imported with_guard]. rewrite decide_False by done.
  rewrite !elem_of_app, elem_of_cons. auto.
Qed.

Lemma shim_imports_stdio_witness :
  defined __unix__ unix_fresh = true ∧ defined zlib_shim_h unix_fresh = false ∧
  ∃ s', run sys_headers shim_h unix_fresh = Ok s' ∧
    "stdio.h" ∈ imported s' ∧ "zlib.h" ∈ imported s'.
Proof.
  split; [reflexivity|]. split; [reflexivity|].
  destruct (shim_imports_stdio sys_headers unix_fresh eq_refl eq_refl)
    as (s' & Hrun & Hs & Hz & _).
  exists s'. auto.
Defined.

(** ** The claims about what the header emits, and in which order *)

Lemma shim_events_no_text evs line : shim_events evs → EvText line ∉ evs.
Proof.
  intros [->|(incs & defs & -> & Hincs & Hdefs)]; [apply not_elem_of_nil|].
  rewrite elem_of_cons, elem_of_app. intros [Heq|[Hin|Hin]]; [done| |].
  - rewrite Forall_forall in Hincs. by destruct (Hincs _ Hin).
  - rewrite Forall_forall in Hdefs. by destruct (Hdefs _ Hin) as [?|[?|?]].
Qed.

Lemma shim_events_valued evs name body :
  shim_events evs → EvDefine name body ∈ evs → body ≠ "" →
  is_flag_define (EvDefine name body).
Proof.
  intros [->|(incs & defs & -> & Hincs & Hdefs)] Hin Hbody.
  { by apply elem_of_nil in Hin. }
  rewrite elem_of_cons, elem_of_app in Hin.
  destruct Hin as [Heq|[Hin|Hin]].
  - by injection Heq as _ ->.
  - rewrite Forall_forall in Hincs. by destruct (Hincs _ Hin).
  - rewrite Forall_forall in Hdefs. by apply Hdefs.
Qed.

(** C7, as amended: on a Unix-like platform, processing the header (its
    guard still open) re-exports the compression library unchanged: [zlib.h]
    is imported afterwards, and when it was not imported before its
    inclusion is in the trace, after nothing but the guard and the inclusion
    of [stdio.h], before every definition of a flag.  Off Unix nothing is
    included.  On every platform the header adds no line of C source, hence
    no type, function or constant of its own, and the only macros it defines
    with a value are the three flags; its include guard [zlib_shim_h] is
    defined to nothing. *)
Theorem shim_reexports_and_adds_nothing ext s :
  ∃ s' evs, run ext shim_h s = Ok s' ∧
    trace s' = trace s ++ evs ∧
    shim_events evs ∧
    (∀ line, EvText line ∉ evs) ∧
    (∀ name body, EvDefine name body ∈ evs → body ≠ "" →
       is_flag_define (EvDefine name body)) ∧
    (defined zlib_shim_h s = false → defined __unix__ s = true →
       "zlib.h" ∈ imported s' ∧
       ("zlib.h" ∉ imported s → EvInclude "zlib.h" ∈ evs) ∧
       ∃ defs,
         evs = EvDefine zlib_shim_h ""
                 :: included "stdio.h" s ++ included "zlib.h" s ++ defs ∧
         Forall is_flag_define defs) ∧
    (defined __unix__ s = false →
       imported s' = imported s ∧ ∀ header, EvInclude header ∉ evs).
Proof.
  assert (∃ s' evs, run ext shim_h s = Ok s' ∧ trace s' = trace s ++ evs ∧
            shim_events evs ∧
            (defined zlib_shim_h s = false → defined __unix__ s = true →
               "zlib.h" ∈ imported s' ∧
               ("zlib.h" ∉ imported s → EvInclude "zlib.h" ∈ evs) ∧
               ∃ defs,
                 evs = EvDefine zlib_shim_h ""
                         :: included "stdio.h" s ++ included "zlib.h" s
                            ++ defs ∧
                 Forall is_flag_define defs) ∧
            (defined __unix__ s = false →
               imported s' = imported s ∧ ∀ header, EvInclude header ∉ evs))
    as (s' & evs & Hrun & Htr & Hevs & Hpos & Hneg).
  { rewrite run_shim_h. destruct (defined zlib_shim_h s) eqn:Hg.
    { exists s, []. rewrite app_nil_r. split; [done|]. split; [done|].
      split; [by left|]. split; [done|]. intros _. split; [done|].
      intros header. apply not_elem_of_nil. }
    rewrite exec_configuration, defined_with_guard by discriminate.
    destruct (defined __unix__ s) eqn:Hu.
    - destruct (trace_configured ext (with_guard s))
        as (incs & defs & Htr & Hincs & HFincs & Hdefs).
      destruct (settled_after_unix ext (with_guard s)) as (_ & Hz & _).
      cbn [imported with_guard] in Hincs.
      eexists _, (EvDefine zlib_shim_h "" :: incs ++ defs).
      split; [done|]. split.
      { rewrite Htr. cbn [trace with_guard]. by rewrite <- app_assoc. }
      split; [right; by exists incs, defs|]. split; [|done].
      intros _ _. split; [exact Hz|]. split.
      + intros Hn. rewrite Hincs.
        rewrite (decide_False (P := "zlib.h" ∈ imported s)) by done.
        rewrite elem_of_cons, !elem_of_app, list_elem_of_singleton. auto.
      + exists defs. split; [|done]. rewrite Hincs. unfold included.
        by rewrite <- app_assoc.
    - exists (with_guard s), [EvDefine zlib_shim_h ""].
      split; [done|]. split; [done|].
      split; [right; by exists [], []|]. split; [done|].
      intros _. split; [done|].
      intros header. by rewrite list_elem_of_singleton. }
  exists s', evs. repeat split; try done.
  - intros line. by apply shim_events_no_text.
  - intros name body. by apply shim_events_valued.
  - by apply Hpos.
  - by apply Hpos.
  - by apply Hpos.
  - by apply Hneg.
  - by apply Hneg.
Qed.

(** C7 as first stated fails off Unix: on the sample Windows translation
    unit the header defines its guard and stops there; [zlib.h] is neither
    imported nor included, so nothing of the library is re-exported. *)
Lemma shim_exports_nothing_off_unix :
  run sys_headers shim_h win_fresh =
    Ok (mkState (<[zlib_shim_h := ""]> (macros win_fresh)) ∅
                [EvDefine zlib_shim_h ""]) ∧
  ∃ s', run sys_headers shim_h win_fresh = Ok s' ∧
    ("zlib.h" ∉ imported s') ∧ (EvInclude "zlib.h" ∉ trace s').
Proof.
  split; [reflexivity|]. eexists. split; [reflexivity|]. split.
  - apply not_elem_of_empty.
  - cbn. by rewrite list_elem_of_singleton.
Qed.

(** C1 (the header does the opposite): on a Unix translation unit with no
    flag defined and no header imported, whatever the system headers do, the
    trace of the header starts with its guard, then the inclusion of
    [stdio.h] and of [zlib.h]; definitions of flags come only after. *)
Theorem headers_imported_before_flags ext :
  ∃ s' defs, run ext shim_h unix_fresh = Ok s' ∧
    trace s' =
      [EvDefine zlib_shim_h ""; EvInclude "stdio.h"; EvInclude "zlib.h"] ++ defs ∧
    Forall is_flag_define defs.
Proof.
  rewrite run_shim_h.
  replace (defined zlib_shim_h unix_fresh) with false by reflexivity.
  rewrite exec_configuration.
  replace (defined __unix__ (with_guard unix_fresh)) with true by reflexivity.
  destruct (trace_configured ext (with_guard unix_fresh))
    as (incs & defs & Htr & -> & _ & Hdefs).
  eexists _, defs. split; [done|]. split; [|done].
  rewrite Htr. reflexivity.
Qed.

(** ** Further properties of the header *)

Lemma flag_default_None name : name ∉ flags → flag_default name = None.
Proof.
  unfold flags, flag_default. rewrite !elem_of_cons, elem_of_nil. intros Hn.
  repeat case_decide; try done; exfalso; apply Hn; auto.
Qed.

Lemma defined_with_default_ne name body s k :
  k ≠ name → defined k (with_default name body s) = defined k s.
Proof.
  intros Hne. unfold defined. rewrite macros_with_default.
  destruct (macros s !! k); [done|]. by rewrite decide_False.
Qed.

Lemma elem_of_missing name body s n b :
  EvDefine name body ∈ missing n b s ↔
    name = n ∧ body = b ∧ macros s !! n = None.
Proof.
  unfold missing. destruct (defined n s) eqn:Hd.
  - apply defined_true in Hd as [v Hv]. rewrite elem_of_nil, Hv.
    split; [done|]. by intros (_ & _ & ?).
  - apply defined_false in Hd. rewrite list_elem_of_singleton.
    split; [by intros [= -> ->]|by intros (-> & -> & _)].
Qed.

Lemma elem_of_included h header s :
  EvInclude h ∈ included header s ↔ h = header ∧ header ∉ imported s.
Proof.
  unfold included. case_decide.
  - rewrite elem_of_nil. split; [done|]. by intros [_ ?].
  - rewrite list_elem_of_singleton. split; [by intros [= ->]|by intros [-> _]].
Qed.

(** The events of the flag block, one flag after the other. *)
Lemma trace_with_flags_exact s :
  trace (with_flags s) =
    trace s ++ missing _LARGEFILE64_SOURCE "1" s
            ++ missing _FILE_OFFSET_BITS "64" s
            ++ missing _LFS64_LARGEFILE "1" s.
Proof.
  unfold with_flags. rewrite !trace_with_default. unfold missing.
  rewrite !defined_with_default_ne by discriminate.
  by rewrite <- !app_assoc.
Qed.

(** The events of the Unix branch. *)
Lemma trace_configured_exact ext s :
  let t := import ext "zlib.h" (import ext "stdio.h" s) in
  trace (with_flags t) =
    trace s ++ included "stdio.h" s ++ included "zlib.h" s
            ++ missing _LARGEFILE64_SOURCE "1" t
            ++ missing _FILE_OFFSET_BITS "64" t
            ++ missing _LFS64_LARGEFILE "1" t.
Proof.
  intros t. rewrite trace_with_flags_exact. unfold t.
  rewrite !trace_import, <- !app_assoc. unfold included.
  assert ("zlib.h" ∈ imported (import ext "stdio.h" s) ↔ "zlib.h" ∈ imported s)
    as Hz.
  { unfold import. case_decide; [done|]. cbn [imported].
    rewrite elem_of_union, elem_of_singleton.
    split; [intros [Heq|Hin]; [discriminate Heq|exact Hin] | by right]. }
  by repeat case_decide; try tauto.
Qed.

Lemma not_include_missing h name body s : EvInclude h ∉ missing name body s.
Proof.
  unfold missing. destruct (defined name s).
  - apply not_elem_of_nil.
  - by rewrite list_elem_of_singleton.
Qed.

(** The header in one formula: skipped, or guard then Unix branch, or guard
    alone. *)
Lemma run_shim_h_cases ext s :
  run ext shim_h s =
    Ok (if defined zlib_shim_h s then s
        else if defined __unix__ s
             then with_flags (import ext "zlib.h"
                    (import ext "stdio.h" (with_guard s)))
             else with_guard s).
Proof.
  rewrite run_shim_h. destruct (defined zlib_shim_h s); [done|].
  rewrite exec_configuration, defined_with_guard by discriminate.
  by destruct (defined __unix__ s).
Qed.

(** X1: the header leaves every other macro alone.  A macro that is neither
    the guard nor one of the three flags, and that the system headers keep,
    is bound after the header exactly as it was before (defined with the
    same replacement list, or undefined), on every platform. *)
Theorem shim_h_frame ext s name :
  name ∉ own_macros →
  keeps ext name →
  ∃ s', run ext shim_h s = Ok s' ∧ macros s' !! name = macros s !! name.
Proof.
  unfold own_macros. rewrite not_elem_of_cons. intros [Hg Hf] Hk.
  rewrite run_shim_h_cases. eexists; split; [done|].
  destruct (defined zlib_shim_h s); [done|].
  destruct (defined __unix__ s).
  - rewrite macros_configured, macros_with_guard, flag_default_None by done.
    by destruct (macros s !! name).
  - by apply macros_with_guard.
Qed.

Lemma shim_h_frame_witness :
  (__unix__ ∉ own_macros) ∧ keeps sys_headers __unix__ ∧
  ∃ s', run sys_headers shim_h unix_fob32 = Ok s' ∧
    macros s' !! __unix__ = Some "1".
Proof.
  assert (__unix__ ∉ own_macros) as Hown.
  { unfold own_macros, flags. rewrite !elem_of_cons, elem_of_nil.
    intros [H|[H|[H|[H|[]]]]]; discriminate H. }
  assert (keeps sys_headers __unix__) as Hk.
  { apply sys_headers_keeps. rewrite !elem_of_cons, elem_of_nil.
    intros [H|[H|[H|[]]]]; discriminate H. }
  split; [exact Hown|]. split; [exact Hk|].
  destruct (shim_h_frame sys_headers unix_fob32 __unix__ Hown Hk)
    as (s' & Hrun & Hsame).
  exists s'. split; [exact Hrun|]. rewrite Hsame. reflexivity.
Defined.

(** X2: the defaults yield to the system headers.  On the first inclusion
    on Unix, with neither header imported yet, the final macro table is the
    table the two headers produce from the caller's table plus the guard,
    completed with the default of each flag that is still undefined then: a
    flag that [stdio.h] or [zlib.h] defines keeps the header's value. *)
Theorem defaults_yield_to_headers ext s :
  defined __unix__ s = true →
  defined zlib_shim_h s = false →
  "stdio.h" ∉ imported s →
  "zlib.h" ∉ imported s →
  ∃ s', run ext shim_h s = Ok s' ∧
    ∀ name,
      macros s' !! name =
        match ext "zlib.h" (ext "stdio.h" (<[zlib_shim_h := ""]> (macros s)))
                !! name with
        | Some v => Some v
        | None => flag_default name
        end.
Proof.
  intros Hunix Hg Hs Hz. rewrite run_shim_h_cases, Hg, Hunix.
  eexists; split; [done|]. intros name. rewrite macros_with_flags.
  unfold import at 2. rewrite decide_False by done.
  unfold import. cbn [imported macros with_guard].
  rewrite decide_False; [done|].
  rewrite elem_of_union, elem_of_singleton.
  intros [Heq|Hin]; [discriminate Heq|done].
Qed.

Lemma defaults_yield_to_headers_witness :
  defined __unix__ unix_fresh = true ∧
  defined zlib_shim_h unix_fresh = false ∧
  ("stdio.h" ∉ imported unix_fresh) ∧ ("zlib.h" ∉ imported unix_fresh) ∧
  ∃ s', run lfs_headers shim_h unix_fresh = Ok s' ∧
    macros s' !! _FILE_OFFSET_BITS = Some "32" ∧
    macros s' !! _LARGEFILE64_SOURCE = Some "1".
Proof.
  split; [reflexivity|]. split; [reflexivity|].
  split; [apply not_elem_of_empty|]. split; [apply not_elem_of_empty|].
  destruct (defaults_yield_to_headers lfs_headers unix_fresh eq_refl eq_refl
              (not_elem_of_empty _) (not_elem_of_empty _)) as (s' & Hrun & Hall).
  exists s'. split; [exact Hrun|]. rewrite !Hall. split; reflexivity.
Defined.

(** X3: when a header is included.  The header includes [h] exactly when
    its guard is open, the platform is Unix, [h] is [stdio.h] or [zlib.h],
    and [h] was not imported before; nothing else is ever included. *)
Theorem shim_h_includes_iff ext s :
  ∃ s' evs, run ext shim_h s = Ok s' ∧
    trace s' = trace s ++ evs ∧
    ∀ h, EvInclude h ∈ evs ↔
      defined zlib_shim_h s = false ∧ defined __unix__ s = true ∧
      (h = "stdio.h" ∨ h = "zlib.h") ∧ h ∉ imported s.
Proof.
  rewrite run_shim_h_cases.
  destruct (defined zlib_shim_h s); [|destruct (defined __unix__ s)].
  - exists s, []. rewrite app_nil_r. split; [done|]. split; [done|].
    intros h. rewrite elem_of_nil. split; [done|]. by intros [? _].
  - eexists _, (EvDefine zlib_shim_h "" :: _). split; [done|]. split.
    + rewrite (trace_configured_exact ext (with_guard s)).
      cbn [trace with_guard]. by rewrite <- app_assoc.
    + intros h. rewrite elem_of_cons, !elem_of_app, !elem_of_included.
      cbn [imported with_guard]. split.
      * intros [Heq|[[-> Hn]|[[-> Hn]|[Hin|[Hin|Hin]]]]];
          first [discriminate Heq | by apply not_include_missing in Hin
                | repeat split; auto].
      * intros (_ & _ & [-> | ->] & Hn); auto.
  - exists (with_guard s), [EvDefine zlib_shim_h ""].
    split; [done|]. split; [done|].
    intros h. rewrite list_elem_of_singleton.
    split; [done|]. by intros (_ & ? & _).
Qed.

Lemma elem_of_missing_inv e name body s :
  e ∈ missing name body s → e = EvDefine name body.
Proof.
  unfold missing. destruct (defined name s).
  - by intros ?%elem_of_nil.
  - by intros ?%list_elem_of_singleton.
Qed.

(** X4: the flag block defines exactly what is missing.  Run from any state,
    lines 10-20 emit the definition of [name] as [body] if and only if [name]
    is one of the three flags, undefined on entry, and [body] its default;
    they emit nothing but such definitions, so a macro that is already
    defined is never redefined. *)
Theorem flag_block_defines_missing ext s :
  ∃ s' evs, run ext large_file_flags s = Ok s' ∧
    trace s' = trace s ++ evs ∧
    (∀ name body, EvDefine name body ∈ evs ↔
       macros s !! name = None ∧ flag_default name = Some body) ∧
    (∀ e, e ∈ evs → ∃ name body, e = EvDefine name body).
Proof.
  rewrite run_large_file_flags. eexists _, _. split; [done|].
  split; [apply trace_with_flags_exact|]. split.
  - intros name body. rewrite !elem_of_app, !elem_of_missing. split.
    + intros [(-> & -> & H)|[(-> & -> & H)|(-> & -> & H)]]; by split.
    + intros [Hn Hd]. unfold flag_default in Hd.
      repeat case_decide; simplify_eq; auto.
  - intros e. rewrite !elem_of_app.
    intros [H|[H|H]]; apply elem_of_missing_inv in H; eauto.
Qed.

(** X5: one pass never repeats itself.  Whatever the platform, the state and
    the system headers, the events one pass over the header adds to the
    trace are pairwise distinct: no header is included twice and no macro is
    defined twice. *)
Theorem shim_h_events_nodup ext s :
  ∃ s' evs, run ext shim_h s = Ok s' ∧
    trace s' = trace s ++ evs ∧
    NoDup evs.
Proof.
  rewrite run_shim_h_cases.
  destruct (defined zlib_shim_h s); [|destruct (defined __unix__ s)].
  - exists s, []. rewrite app_nil_r. repeat split. apply NoDup_nil_2.
  - eexists _, (EvDefine zlib_shim_h "" :: _). split; [done|]. split.
    + rewrite (trace_configured_exact ext (with_guard s)).
      cbn [trace with_guard]. by rewrite <- app_assoc.
    + unfold included, missing. repeat case_decide;
        repeat match goal with
               | |- context [if ?b then _ else _] => destruct b
               end;
        apply (bool_decide_unpack _); vm_compute; exact I.
  - exists (with_guard s), [EvDefine zlib_shim_h ""]. repeat split.
    apply NoDup_singleton.
Qed.

(** X6: headers imported before are not read again.  In a translation unit
    that already imported [stdio.h] and [zlib.h], the result of the header
    does not depend on what the two headers contain. *)
Theorem imported_headers_not_reread ext ext' s :
  "stdio.h" ∈ imported s →
  "zlib.h" ∈ imported s →
  run ext shim_h s = run ext' shim_h s.
Proof.
  intros Hs Hz. rewrite !run_shim_h_cases.
  by rewrite !(import_again _ "stdio.h" (with_guard s)),
    !(import_again _ "zlib.h" (with_guard s)).
Qed.

Lemma imported_headers_not_reread_witness :
  "stdio.h" ∈ imported unix_preloaded ∧ "zlib.h" ∈ imported unix_preloaded ∧
  run sys_headers shim_h unix_preloaded = run lfs_headers shim_h unix_preloaded.
Proof.
  assert ("stdio.h" ∈ imported unix_preloaded) as Hs.
  { apply (bool_decide_unpack _). vm_compute. exact I. }
  assert ("zlib.h" ∈ imported unix_preloaded) as Hz.
  { apply (bool_decide_unpack _). vm_compute. exact I. }
  split; [exact Hs|]. split; [exact Hz|].
  exact (imported_headers_not_reread sys_headers lfs_headers unix_preloaded
           Hs Hz).
Defined.

(** ** Examples *)

(** The header on the sample Unix translation unit, in full. *)
Example shim_h_unix_fresh :
  ∃ s', run sys_headers shim_h unix_fresh = Ok s' ∧
    trace s' =
      [ EvDefine zlib_shim_h ""; EvInclude "stdio.h"; EvInclude "zlib.h";
        EvDefine _LARGEFILE64_SOURCE "1"; EvDefine _FILE_OFFSET_BITS "64";
        EvDefine _LFS64_LARGEFILE "1" ] ∧
    macros s' =
      list_to_map
        [ (__unix__, "1"); (zlib_shim_h, ""); ("_STDIO_H", "1"); ("ZLIB_H", "");
          ("ZLIB_VERNUM", "0x12b0"); (_LARGEFILE64_SOURCE, "1");
          (_FILE_OFFSET_BITS, "64"); (_LFS64_LARGEFILE, "1") ] ∧
    imported s' = {["stdio.h"; "zlib.h"]}.
Proof.
  eexists. split; [reflexivity|]. split; [reflexivity|].
  split; vm_compute; reflexivity.
Qed.

(** A [#define] fails when it redefines a macro with another replacement
    list; every [#define] of the header is under [#ifndef] of its macro. *)
Example define_can_fail ext :
  exec ext (Define _FILE_OFFSET_BITS "64") unix_fob32 =
    Err (Redefined _FILE_OFFSET_BITS).
Proof. reflexivity. Qed.

(** The header on the sample Windows translation unit: the guard and nothing
    else. *)
Example shim_h_win_fresh :
  run sys_headers shim_h win_fresh =
    Ok (mkState (<[zlib_shim_h := ""]> {["_WIN32" := "1"]}) ∅
                [EvDefine zlib_shim_h ""]).
Proof. reflexivity. Qed.

(** The assumption that the system headers keep the flags is not idle: with
    a header that drops a flag defined as 0, the flag block defines it anew. *)
Example flag_lost_by_header :
  let ext header m :=
    if decide (m !! _LARGEFILE64_SOURCE = Some "0")
    then delete _LARGEFILE64_SOURCE m else m in
  ∃ s', exec ext configuration unix_l64_zero = Ok s' ∧
    macros s' !! _LARGEFILE64_SOURCE = Some "1".
Proof. eexists. split; reflexivity. Qed.
